(** * DataReviewTable: the record-review component, embedded and verified

    A shallow embedding of the final [DataReviewTable] React component
    (search filter, CSV flattening and export, severity colouring, tooltip
    and modal state, fetch lifecycle) together with the properties its
    specification states about it.

    Conventions of the embedding:
    - a JavaScript string is a [string] (a sequence of bytes, UTF-8 for text
      outside ASCII); [toLowerCase] is modelled on the ASCII letters and
      leaves every other byte as it is, so it is the JavaScript function on
      ASCII text only;
    - a JavaScript number that holds an integer is a [Z]; [String(n)] is its
      decimal numeral (what JavaScript prints for integers below 10^21 in
      magnitude);
    - an optional property ([street?: string]) is an [option]: [None] is the
      property being absent from the object;
    - the component's [useState] cells form one [State] record, and every
      handler is a program of a small state-and-trace monad [M] whose trace
      records the calls that leave the component (console, network, DOM). *)

From Stdlib Require Import String Ascii List ZArith Bool Lia DecimalString.
Import ListNotations.
Local Open Scope string_scope.
Local Open Scope bool_scope.

(* ------------------------------------------------------------------ *)
(** ** The fragment of JavaScript the component relies on *)

Module JS.

(** The values that occur as property values of the objects handled here. *)
Inductive Value : Type :=
| VNumber (n : Z)
| VString (s : string)
| VObject.

(** [String(value)]: decimal numeral of a number, a string itself, and
    the default [Object.prototype.toString] text for a plain object. *)
Definition String_ (v : Value) : string :=
  match v with
  | VNumber n => NilZero.string_of_int (Z.to_int n)
  | VString s => s
  | VObject => "[object Object]"
  end.

Definition lower_char (c : ascii) : ascii :=
  let n := nat_of_ascii c in
  if (65 <=? n)%nat && (n <=? 90)%nat then ascii_of_nat (n + 32) else c.

(** [s.toLowerCase()], as it acts on ASCII text: the letters [A] to [Z]
    are lowered one by one and every other byte is kept.  On text outside
    ASCII the JavaScript function is wider and looks at the context of a
    letter; what is proved about the action of lowering on letters is
    stated for ASCII text. *)
Fixpoint toLowerCase (s : string) : string :=
  match s with
  | EmptyString => EmptyString
  | String c s' => String (lower_char c) (toLowerCase s')
  end.

(** [s.includes(q)]: [q] occurs in [s] at some position. *)
Fixpoint includes (s q : string) : bool :=
  String.prefix q s ||
  match s with
  | EmptyString => false
  | String _ s' => includes s' q
  end.

(** Truthiness of a [string | undefined | null] value. *)
Definition truthy (o : option string) : bool :=
  match o with
  | Some s => negb (String.eqb s EmptyString)
  | None => false
  end.

(** [a || b] where [a] is a possibly missing string and [b] a string. *)
Definition or_else (a : option string) (b : string) : string :=
  match a with
  | Some s => if truthy a then s else b
  | None => b
  end.

(** [a?.f] where [f] is a required property of [a]'s type. *)
Definition chain {A B : Type} (a : option A) (f : A -> B) : option B :=
  match a with
  | Some x => Some (f x)
  | None => None
  end.

(** [a?.f] where [f] is itself an optional property. *)
Definition chain_opt {A B : Type} (a : option A) (f : A -> option B) : option B :=
  match a with
  | Some x => f x
  | None => None
  end.

(** A plain object as the ordered list of its own enumerable properties. *)
Definition Obj : Type := list (string * Value).

Definition Object_keys (o : Obj) : list string := map fst o.

(** [o[k]]: [None] stands for [undefined]. *)
Fixpoint get (k : string) (o : Obj) : option Value :=
  match o with
  | [] => None
  | (k', v) :: o' => if String.eqb k k' then Some v else get k o'
  end.

End JS.

(* ------------------------------------------------------------------ *)
(** ** Data model: the interfaces [ValidationError] and [Record] *)

Inductive Severity : Type := critical | warning.

Definition Severity_text (s : Severity) : string :=
  match s with
  | critical => "critical"
  | warning => "warning"
  end.

Record ValidationError : Type := {
  message : string;
  severity : Severity
}.

(** The anonymous object type of [Record.errors]. *)
Module Errors.
Record t : Type := {
  email : option ValidationError;
  phone : option ValidationError;
  zipcode : option ValidationError;
  street : option ValidationError
}.
End Errors.

(** [interface Record] ([Record] is a keyword here, hence the underscore). *)
Record Record_ : Type := {
  id : Z;
  name : string;
  email : string;
  street : option string;
  city : option string;
  zipcode : option string;
  phone : option string;
  status : string;
  errors : option Errors.t
}.

(** [Object.values(record)]: the values of the properties the object has.
    An absent optional property contributes no value; a present [errors]
    property contributes its object.  The properties are listed in the order
    of the interface; the only consumer, [some], does not depend on it. *)
Definition opt_value (o : option string) : list JS.Value :=
  match o with
  | Some s => [JS.VString s]
  | None => []
  end.

Definition Object_values (record : Record_) : list JS.Value :=
  [JS.VNumber (id record); JS.VString (name record); JS.VString (email record)]
  ++ opt_value (street record)
  ++ opt_value (city record)
  ++ opt_value (zipcode record)
  ++ opt_value (phone record)
  ++ [JS.VString (status record)]
  ++ match errors record with
     | Some _ => [JS.VObject]
     | None => []
     end.

(* ------------------------------------------------------------------ *)
(** ** Filter engine: [filteredRecords] *)

(** The callback of [some]: one property value against the query. *)
Definition value_matches (searchQuery : string) (value : JS.Value) : bool :=
  JS.includes (JS.toLowerCase (JS.String_ value)) (JS.toLowerCase searchQuery).

(** The callback of [filter]. *)
Definition record_matches (searchQuery : string) (record : Record_) : bool :=
  existsb (value_matches searchQuery) (Object_values record).

Definition filteredRecords (records : list Record_) (searchQuery : string)
  : list Record_ :=
  filter (record_matches searchQuery) records.

(* ------------------------------------------------------------------ *)
(** ** Export pipeline: [flattenRecord] *)

Definition error_message (e : option Errors.t)
    (field : Errors.t -> option ValidationError) : string :=
  JS.or_else (JS.chain (JS.chain_opt e field) message) EmptyString.

Definition error_severity (e : option Errors.t)
    (field : Errors.t -> option ValidationError) : string :=
  JS.or_else
    (JS.chain (JS.chain (JS.chain_opt e field) severity) Severity_text)
    EmptyString.

Definition flattenRecord (record : Record_) : JS.Obj :=
  [ ("id", JS.VNumber (id record));
    ("name", JS.VString (name record));
    ("email", JS.VString (email record));
    ("street", JS.VString (JS.or_else (street record) EmptyString));
    ("city", JS.VString (JS.or_else (city record) EmptyString));
    ("zipcode", JS.VString (JS.or_else (zipcode record) EmptyString));
    ("phone", JS.VString (JS.or_else (phone record) EmptyString));
    ("status", JS.VString (status record));
    ("email_error", JS.VString (error_message (errors record) Errors.email));
    ("email_severity", JS.VString (error_severity (errors record) Errors.email));
    ("phone_error", JS.VString (error_message (errors record) Errors.phone));
    ("phone_severity", JS.VString (error_severity (errors record) Errors.phone));
    ("zipcode_error", JS.VString (error_message (errors record) Errors.zipcode));
    ("zipcode_severity", JS.VString (error_severity (errors record) Errors.zipcode));
    ("street_error", JS.VString (error_message (errors record) Errors.street));
    ("street_severity", JS.VString (error_severity (errors record) Errors.street)) ].

(* ------------------------------------------------------------------ *)
(** ** The serializer: [Papa.unparse] on an array of objects

    [Papa.unparse] belongs to the papaparse package, a dependency of the
    component.  The component calls it with one argument, so the package's
    default configuration applies: comma delimiter, CR LF between lines,
    the double quote as quote character, header written, quoting only where
    a cell needs it, and no column list of the caller's.  The definitions
    below follow the package's [JsonToCsv], [serialize] and [safe] for that
    configuration. *)

Module Papa.

Definition quoteChar : ascii := ascii_of_nat 34.
Definition delimiter : string := ",".
Definition newline : string :=
  String (ascii_of_nat 13) (String (ascii_of_nat 10) EmptyString).

Definition BYTE_ORDER_MARK : string :=
  String (ascii_of_nat 239)
    (String (ascii_of_nat 187) (String (ascii_of_nat 191) EmptyString)).

Definition BAD_DELIMITERS : list string :=
  [ String (ascii_of_nat 13) EmptyString;
    String (ascii_of_nat 10) EmptyString;
    String quoteChar EmptyString;
    BYTE_ORDER_MARK ].

Definition hasAny (str : string) (substrings : list string) : bool :=
  existsb (JS.includes str) substrings.

(** [str.replace(quoteCharRegex, escapedQuote)]: every quote is doubled. *)
Fixpoint escapeQuotes (str : string) : string :=
  match str with
  | EmptyString => EmptyString
  | String c str' =>
      if Ascii.eqb c quoteChar
      then String c (String c (escapeQuotes str'))
      else String c (escapeQuotes str')
  end.

Definition starts_with_space (s : string) : bool :=
  match s with
  | String c _ => Ascii.eqb c " "%char
  | EmptyString => false
  end.

Fixpoint ends_with_space (s : string) : bool :=
  match s with
  | EmptyString => false
  | String c EmptyString => Ascii.eqb c " "%char
  | String _ s' => ends_with_space s'
  end.

(** [safe(str, col)]: a cell made fit for the document. *)
Definition safe (cell : option JS.Value) : string :=
  match cell with
  | None => EmptyString
  | Some v =>
      let escapedQuoteStr := escapeQuotes (JS.String_ v) in
      let needsQuotes :=
        hasAny escapedQuoteStr BAD_DELIMITERS
        || JS.includes escapedQuoteStr delimiter
        || starts_with_space escapedQuoteStr
        || ends_with_space escapedQuoteStr in
      if needsQuotes
      then String quoteChar (escapedQuoteStr ++ String quoteChar EmptyString)
      else escapedQuoteStr
  end.

Definition is_nil {A : Type} (l : list A) : bool :=
  match l with
  | [] => true
  | _ :: _ => false
  end.

(** One pass of the outer loop of [serialize], for data keyed by field. *)
Definition serialize_row (hasHeader : bool) (fields : list string)
    (row : JS.Obj) : string :=
  if hasHeader then
    let nullLine := is_nil (JS.Object_keys row) in
    String.concat (if nullLine then EmptyString else delimiter)
      (map (fun field => safe (JS.get field row)) fields)
  else EmptyString.

(** [serialize(fields, data, skipEmptyLines)] with [skipEmptyLines] off;
    [fields = None] is the call with [null]. *)
Definition serialize (fields : option (list string)) (data : list JS.Obj)
  : string :=
  let cols := match fields with Some fs => fs | None => [] end in
  let hasHeader := negb (is_nil cols) in
  let header :=
    if hasHeader
    then String.concat delimiter
           (map (fun field => safe (Some (JS.VString field))) cols)
         ++ (if is_nil data then EmptyString else newline)
    else EmptyString in
  header ++ String.concat newline (map (serialize_row hasHeader cols) data).

(** [Papa.unparse(input)] for an array of objects: the columns are the
    keys of the first object, and an empty array has none. *)
Definition unparse (input : list JS.Obj) : string :=
  match input with
  | [] => serialize None input
  | first :: _ => serialize (Some (JS.Object_keys first)) input
  end.

End Papa.

(* ------------------------------------------------------------------ *)
(** ** Component state and the handler monad *)

Record Position : Type := { x : Z; y : Z }.

(** The seven [useState] cells of the component. *)
Record State : Type := {
  records : list Record_;
  loading : bool;
  error : option string;
  modalData : option Record_;
  searchQuery : string;
  hoveredError : option string;
  tooltipPosition : option Position
}.

(** The initial values given to [useState]. *)
Definition initialState : State := {|
  records := [];
  loading := true;
  error := None;
  modalData := None;
  searchQuery := EmptyString;
  hoveredError := None;
  tooltipPosition := None
|}.

(** What a rejected fetch carries: an HTTP failure with its status, a
    failure without a response, or any other thrown value. *)
Inductive FetchError : Type :=
| HttpError (statusCode : Z)
| NetworkError (code : string)
| Thrown (text : string).

(** The outcome of awaiting [axios.get] and reading [response.data.records]. *)
Inductive FetchResult : Type :=
| Resolved (payload : list Record_)
| Rejected (err : FetchError).

(** Calls that leave the component, in program order. *)
Inductive Effect : Type :=
| HttpGet (url : string)
| ConsoleError (err : FetchError)
| NewBlob (content type : string)
| CreateElement (tag : string)
| CreateObjectURL (content : string)
| SetHref (content : string)
| SetAttribute (attr value : string)
| AppendChild (tag : string)
| Click (tag : string)
| RemoveChild (tag : string).

Definition M (A : Type) : Type := State -> A * State * list Effect.

Definition ret {A : Type} (a : A) : M A := fun st => (a, st, []).

Definition bind {A B : Type} (m : M A) (k : A -> M B) : M B :=
  fun st =>
    let '(a, st1, t1) := m st in
    let '(b, st2, t2) := k a st1 in
    (b, st2, (t1 ++ t2)%list).

Definition read : M State := fun st => (st, st, []).
Definition modify (f : State -> State) : M unit := fun st => (tt, f st, []).
Definition emit (e : Effect) : M unit := fun st => (tt, st, [e]).

Declare Scope handler_scope.
Delimit Scope handler_scope with handler.
Notation "x <- m ;; k" := (bind m (fun x => k))
  (at level 61, m at next level, right associativity) : handler_scope.
Notation "m ;; k" := (bind m (fun _ => k))
  (at level 61, right associativity) : handler_scope.
Local Open Scope handler_scope.

Definition state_after {A : Type} (m : M A) (st : State) : State :=
  snd (fst (m st)).
Definition trace_of {A : Type} (m : M A) (st : State) : list Effect :=
  snd (m st).

(** The setters returned by [useState]. *)
Definition setRecords (v : list Record_) : M unit :=
  modify (fun st => {| records := v; loading := loading st; error := error st;
    modalData := modalData st; searchQuery := searchQuery st;
    hoveredError := hoveredError st; tooltipPosition := tooltipPosition st |}).
Definition setLoading (v : bool) : M unit :=
  modify (fun st => {| records := records st; loading := v; error := error st;
    modalData := modalData st; searchQuery := searchQuery st;
    hoveredError := hoveredError st; tooltipPosition := tooltipPosition st |}).
Definition setError (v : option string) : M unit :=
  modify (fun st => {| records := records st; loading := loading st; error := v;
    modalData := modalData st; searchQuery := searchQuery st;
    hoveredError := hoveredError st; tooltipPosition := tooltipPosition st |}).
Definition setModalData (v : option Record_) : M unit :=
  modify (fun st => {| records := records st; loading := loading st;
    error := error st; modalData := v; searchQuery := searchQuery st;
    hoveredError := hoveredError st; tooltipPosition := tooltipPosition st |}).
Definition setSearchQuery (v : string) : M unit :=
  modify (fun st => {| records := records st; loading := loading st;
    error := error st; modalData := modalData st; searchQuery := v;
    hoveredError := hoveredError st; tooltipPosition := tooltipPosition st |}).
Definition setHoveredError (v : option string) : M unit :=
  modify (fun st => {| records := records st; loading := loading st;
    error := error st; modalData := modalData st; searchQuery := searchQuery st;
    hoveredError := v; tooltipPosition := tooltipPosition st |}).
Definition setTooltipPosition (v : option Position) : M unit :=
  modify (fun st => {| records := records st; loading := loading st;
    error := error st; modalData := modalData st; searchQuery := searchQuery st;
    hoveredError := hoveredError st; tooltipPosition := v |}).

(* ------------------------------------------------------------------ *)
(** ** Handlers of the component *)

(** The part of a DOM event the handlers read. *)
Record DomEvent : Type := {
  target_id : string;
  pageX : Z;
  pageY : Z
}.

Definition fetchErrorText : string :=
  "Error fetching data. Please try again later.".

(** [fetchData] up to its [await]: the request is issued. *)
Definition fetchData_request : M unit := emit (HttpGet "/api/data").

(** [fetchData] from its [await] on: the [try], [catch] and [finally]
    blocks, run with the outcome of the request. *)
Definition fetchData_settle (result : FetchResult) : M unit :=
  match result with
  | Resolved payload =>
      setRecords payload ;;
      setError None
  | Rejected err =>
      setError (Some fetchErrorText) ;;
      emit (ConsoleError err)
  end ;;
  setLoading false.

Definition exportFileName : string := "data_export_with_errors.csv".

(** The two [const]s of [exportToCSV], as functions of the cells the
    handler closes over. *)
Definition flattenedData (st : State) : list JS.Obj :=
  map flattenRecord (filteredRecords (records st) (searchQuery st)).

Definition export_csv (st : State) : string :=
  Papa.unparse (flattenedData st).

Definition exportToCSV : M unit :=
  st <- read ;;
  let csv := export_csv st in
  emit (NewBlob csv "text/csv;charset=utf-8;") ;;
  emit (CreateElement "a") ;;
  emit (CreateObjectURL csv) ;;
  emit (SetHref csv) ;;
  emit (SetAttribute "download" exportFileName) ;;
  emit (AppendChild "a") ;;
  emit (Click "a") ;;
  emit (RemoveChild "a").

Definition getFieldColor (severity : option Severity) : string :=
  match severity with
  | Some critical => "bg-red-500/20 hover:bg-red-500/30 text-red-900"
  | Some warning => "bg-yellow-500/20 hover:bg-yellow-500/30 text-yellow-900"
  | None => "bg-green-500/20 hover:bg-green-500/30 text-green-900"
  end.

Definition closeModal (e : DomEvent) : M unit :=
  if String.eqb (target_id e) "modal-background"
  then setModalData None
  else ret tt.

Definition handleMouseMove (e : DomEvent) (errorMessage : string) : M unit :=
  setHoveredError (Some errorMessage) ;;
  setTooltipPosition (Some {| x := pageX e; y := pageY e |}).

Definition handleMouseLeave : M unit :=
  setHoveredError None ;;
  setTooltipPosition None.

(* ------------------------------------------------------------------ *)
(** ** What the component renders and the events it wires *)

(** The four cells of a table row that carry the hover handlers. *)
Inductive WatchedField : Type := FEmail | FStreet | FZipcode | FPhone.

(** [record.errors?.<field>] *)
Definition field_error (field : WatchedField) (record : Record_)
  : option ValidationError :=
  JS.chain_opt (errors record)
    match field with
    | FEmail => Errors.email
    | FStreet => Errors.street
    | FZipcode => Errors.zipcode
    | FPhone => Errors.phone
    end.

(** [className] colour of a watched cell. *)
Definition cell_color (field : WatchedField) (record : Record_) : string :=
  getFieldColor (JS.chain (field_error field record) severity).

(** [onMouseMove] of a watched cell. *)
Definition cell_onMouseMove (field : WatchedField) (record : Record_)
    (e : DomEvent) : M unit :=
  handleMouseMove e
    (JS.or_else (JS.chain (field_error field record) message) EmptyString).

(** The elements of the modal a click can land on. *)
Inductive ModalElement : Type :=
| Scrim
| Panel
| Heading
| ErrorList
| ErrorItem (field : string)
| CloseButton.

(** Only the outer [div] of the modal carries an [id]. *)
Definition element_id (el : ModalElement) : string :=
  match el with
  | Scrim => "modal-background"
  | _ => EmptyString
  end.

(** A click inside the modal: the [onClick] handlers on the path from the
    target up to the outer [div] run in that order, each with the same
    [e.target]. *)
Definition modal_click (el : ModalElement) (px py : Z) : M unit :=
  let e := {| target_id := element_id el; pageX := px; pageY := py |} in
  match el with
  | CloseButton => setModalData None
  | _ => ret tt
  end ;;
  closeModal e.

Record Tooltip : Type := {
  tooltip_text : string;
  tooltip_top : Z;
  tooltip_left : Z
}.

(** [hoveredError && tooltipPosition && (...)] *)
Definition tooltip (st : State) : option Tooltip :=
  if JS.truthy (hoveredError st) then
    match tooltipPosition st with
    | Some pos =>
        Some {| tooltip_text := JS.or_else (hoveredError st) EmptyString;
                tooltip_top := y pos + 10;
                tooltip_left := x pos + 10 |}
    | None => None
    end
  else None.

Inductive View : Type :=
| LoadingView
| ErrorView (text : string)
| TableView (rows : list Record_) (tip : option Tooltip)
    (modal : option Record_).

(** The three returns of the component body. *)
Definition render (st : State) : View :=
  if loading st then LoadingView
  else if JS.truthy (error st)
  then ErrorView (JS.or_else (error st) EmptyString)
  else TableView (filteredRecords (records st) (searchQuery st))
         (tooltip st) (modalData st).

(** Everything that can happen to the mounted component. *)
Inductive Event : Type :=
| Mount
| FetchSettled (result : FetchResult)
| SearchChange (value : string)
| CellMouseMove (field : WatchedField) (record : Record_) (e : DomEvent)
| CellMouseLeave
| ViewErrorsClick (record : Record_)
| ModalClick (el : ModalElement) (px py : Z)
| ExportClick.

Definition handle (ev : Event) : M unit :=
  match ev with
  | Mount => fetchData_request
  | FetchSettled result => fetchData_settle result
  | SearchChange value => setSearchQuery value
  | CellMouseMove field record e => cell_onMouseMove field record e
  | CellMouseLeave => handleMouseLeave
  | ViewErrorsClick record => setModalData (Some record)
  | ModalClick el px py => modal_click el px py
  | ExportClick => exportToCSV
  end.

Fixpoint run (evs : list Event) : M unit :=
  match evs with
  | [] => ret tt
  | ev :: evs' => handle ev ;; run evs'
  end.

(** States the component can be in: those some history of events leads to
    from the initial values of the cells. *)
Definition reachable (st : State) : Prop :=
  exists evs, state_after (run evs) initialState = st.

(* ------------------------------------------------------------------ *)
(** ** The specification's vocabulary *)

(** The fixed column list of the export. *)
Definition columns : list string :=
  [ "id"; "name"; "email"; "street"; "city"; "zipcode"; "phone"; "status";
    "email_error"; "email_severity"; "phone_error"; "phone_severity";
    "zipcode_error"; "zipcode_severity"; "street_error"; "street_severity" ].

Definition header_line : string := String.concat "," columns.

(** An optional scalar as the specification exports it. *)
Definition text_or_empty (o : option string) : string :=
  match o with
  | Some s => s
  | None => EmptyString
  end.

(** The two export columns of a watched field, as the specification words
    them: message and severity of the Finding, or empty strings. *)
Definition finding_message (f : option ValidationError) : string :=
  match f with
  | Some v => message v
  | None => EmptyString
  end.

Definition finding_severity (f : option ValidationError) : string :=
  match f with
  | Some v => Severity_text (severity v)
  | None => EmptyString
  end.

(** The cells of the row the specification prescribes for a record, in
    column order. *)
Definition specified_cells (record : Record_) : list JS.Value :=
  [ JS.VNumber (id record);
    JS.VString (name record);
    JS.VString (email record);
    JS.VString (text_or_empty (street record));
    JS.VString (text_or_empty (city record));
    JS.VString (text_or_empty (zipcode record));
    JS.VString (text_or_empty (phone record));
    JS.VString (status record);
    JS.VString (finding_message (field_error FEmail record));
    JS.VString (finding_severity (field_error FEmail record));
    JS.VString (finding_message (field_error FPhone record));
    JS.VString (finding_severity (field_error FPhone record));
    JS.VString (finding_message (field_error FZipcode record));
    JS.VString (finding_severity (field_error FZipcode record));
    JS.VString (finding_message (field_error FStreet record));
    JS.VString (finding_severity (field_error FStreet record)) ].

(** A cell that is text: neither a number nor a missing value. *)
Definition is_text (cell : option JS.Value) : bool :=
  match cell with
  | Some (JS.VString _) => true
  | _ => false
  end.

(** [q] occurs in [s], compared without regard to letter case. *)
Definition contains_ci (s q : string) : Prop :=
  exists before after,
    JS.toLowerCase s = before ++ JS.toLowerCase q ++ after.

(** The scalar attribute values of a record: every property but [errors]. *)
Definition scalar_values (record : Record_) : list JS.Value :=
  [JS.VNumber (id record); JS.VString (name record); JS.VString (email record)]
  ++ opt_value (street record)
  ++ opt_value (city record)
  ++ opt_value (zipcode record)
  ++ opt_value (phone record)
  ++ [JS.VString (status record)].

(** The filter as the specification words it: a record is kept when one of
    its scalar values contains the query. *)
Definition scalar_match (q : string) (record : Record_) : bool :=
  existsb (value_matches q) (scalar_values record).

Definition filter_by_scalars (rs : list Record_) (q : string) : list Record_ :=
  filter (scalar_match q) rs.

(** [l1] is [l2] with some elements left out, order kept. *)
Inductive Subsequence {A : Type} : list A -> list A -> Prop :=
| sub_nil : Subsequence [] []
| sub_keep : forall a l1 l2, Subsequence l1 l2 -> Subsequence (a :: l1) (a :: l2)
| sub_skip : forall a l1 l2, Subsequence l1 l2 -> Subsequence l1 (a :: l2).

(** The three presentation tiers and the class text that renders each. *)
Inductive Tier : Type := TierNone | TierWarning | TierCritical.

Definition severity_tier (finding : option ValidationError) : Tier :=
  match finding with
  | None => TierNone
  | Some f =>
      match severity f with
      | critical => TierCritical
      | warning => TierWarning
      end
  end.

Definition tier_class (t : Tier) : string :=
  match t with
  | TierCritical => "bg-red-500/20 hover:bg-red-500/30 text-red-900"
  | TierWarning => "bg-yellow-500/20 hover:bg-yellow-500/30 text-yellow-900"
  | TierNone => "bg-green-500/20 hover:bg-green-500/30 text-green-900"
  end.

(** The hover invariant: message and position are set together. *)
Definition hover_consistent (st : State) : Prop :=
  hoveredError st <> None <-> tooltipPosition st <> None.

Definition is_request (e : Effect) : bool :=
  match e with
  | HttpGet _ => true
  | _ => false
  end.

(** Events of the user; [Mount] and [FetchSettled] belong to the one fetch
    the effect hook with an empty dependency list starts. *)
Definition user_event (ev : Event) : bool :=
  match ev with
  | Mount | FetchSettled _ => false
  | _ => true
  end.

(** The line of the document written for one record. *)
Definition record_line (r : Record_) : string :=
  String.concat "," (map (fun v => Papa.safe (Some v)) (specified_cells r)).

(** Sample data: a record without optional fields and without findings, a
    record with a finding on its email, and a pointer event. *)
Definition ann : Record_ := {|
  id := 1; name := "Ann"; email := "a@x.com";
  street := None; city := None; zipcode := None; phone := None;
  status := "active"; errors := None
|}.

Definition bob : Record_ := {|
  id := 2; name := "Bob"; email := "bob-at-x.com";
  street := Some "1 Main St"; city := Some "Springfield";
  zipcode := Some "12345"; phone := None;
  status := "pending";
  errors := Some {|
    Errors.email := Some {| message := "bad format"; severity := critical |};
    Errors.phone := None;
    Errors.zipcode := None;
    Errors.street := None
  |}
|}.


(** The cells once a fetch has delivered [rs]. *)
Definition loaded (rs : list Record_) : State :=
  state_after (run [Mount; FetchSettled (Resolved rs)]) initialState.

(* ------------------------------------------------------------------ *)
(** ** The rest of the component: badge, table cells, modal listing *)





(** The text of a watched cell of a table row: the email as it is, the
    optional fields with their placeholder. *)
Definition cell_text (field : WatchedField) (record : Record_) : string :=
  match field with
  | FEmail => email record
  | FStreet => JS.or_else (street record) "N/A"
  | FZipcode => JS.or_else (zipcode record) "N/A"
  | FPhone => JS.or_else (phone record) "N/A"
  end.

(** The value [flattenRecord] writes in the column of a watched field. *)
Definition exported_text (field : WatchedField) (record : Record_) : string :=
  match field with
  | FEmail => email record
  | FStreet => JS.or_else (street record) EmptyString
  | FZipcode => JS.or_else (zipcode record) EmptyString
  | FPhone => JS.or_else (phone record) EmptyString
  end.

(** The key of a watched field in the [errors] object. *)
Definition field_key (field : WatchedField) : string :=
  match field with
  | FEmail => "email"
  | FStreet => "street"
  | FZipcode => "zipcode"
  | FPhone => "phone"
  end.

Definition opt_entry (key : string) (o : option ValidationError)
  : list (string * ValidationError) :=
  match o with
  | Some v => [(key, v)]
  | None => []
  end.

(** [Object.entries(record.errors || {})]: one pair per Finding the object
    holds, listed in the order of the interface. *)
Definition Object_entries (e : option Errors.t)
  : list (string * ValidationError) :=
  match e with
  | Some o =>
      opt_entry "email" (Errors.email o)
      ++ opt_entry "phone" (Errors.phone o)
      ++ opt_entry "zipcode" (Errors.zipcode o)
      ++ opt_entry "street" (Errors.street o)
  | None => []
  end.

(** One [li] of the modal: its key, the colour in its class, its text. *)
Record ModalEntry : Type := {
  entry_field : string;
  entry_color : string;
  entry_message : string
}.

Record ModalView : Type := {
  modal_title : string;
  modal_entries : list ModalEntry
}.

Definition renderModal (record : Record_) : ModalView :=
  {| modal_title := "Error Summary for " ++ name record;
     modal_entries :=
       map (fun entry : string * ValidationError =>
              let (field, error) := entry in
              {| entry_field := field;
                 entry_color := getFieldColor (JS.chain (Some error) severity);
                 entry_message := message error |})
           (Object_entries (errors record)) |}.

(** Text of ASCII characters only.  On such text [s.toLowerCase()] acts
    letter by letter, as [JS.toLowerCase] does; outside it the JavaScript
    function depends on the neighbours of a letter. *)
Fixpoint is_ascii_text (s : string) : bool :=
  match s with
  | EmptyString => true
  | String c s' => (nat_of_ascii c <? 128)%nat && is_ascii_text s'
  end.

(** A record all of whose searched values are ASCII text. *)
Definition ascii_record (record : Record_) : bool :=
  forallb (fun v => is_ascii_text (JS.String_ v)) (Object_values record).

(** Events other than the settling of the fetch. *)
Definition not_settled (ev : Event) : bool :=
  match ev with
  | FetchSettled _ => false
  | _ => true
  end.

(** Events that touch neither the records nor the query. *)
Definition view_event (ev : Event) : bool :=
  match ev with
  | FetchSettled _ | SearchChange _ => false
  | _ => true
  end.

Definition is_mount (ev : Event) : bool :=
  match ev with
  | Mount => true
  | _ => false
  end.

Definition is_export (ev : Event) : bool :=
  match ev with
  | ExportClick => true
  | _ => false
  end.

(** The console lines a history of events accounts for: one per rejected
    fetch, carrying what was thrown. *)
Definition rejections (evs : list Event) : list Effect :=
  flat_map (fun ev =>
              match ev with
              | FetchSettled (Rejected err) => [ConsoleError err]
              | _ => []
              end) evs.

Definition is_log (e : Effect) : bool :=
  match e with
  | ConsoleError _ => true
  | _ => false
  end.

Definition is_click (e : Effect) : bool :=
  match e with
  | Click _ => true
  | _ => false
  end.

Definition is_append (e : Effect) : bool :=
  match e with
  | AppendChild _ => true
  | _ => false
  end.

Definition is_remove (e : Effect) : bool :=
  match e with
  | RemoveChild _ => true
  | _ => false
  end.

(** An attribute the component sets is the download name. *)
Definition sets_download_name (e : Effect) : bool :=
  match e with
  | SetAttribute attr value =>
      String.eqb attr "download" && String.eqb value exportFileName
  | _ => true
  end.

(** A record with a warning on its phone and an empty street. *)
Definition cyd : Record_ := {|
  id := 3; name := "Cyd"; email := "cyd@x.com";
  street := Some EmptyString; city := Some "Shelbyville";
  zipcode := None; phone := Some "555-0100";
  status := "Active";
  errors := Some {|
    Errors.email := None;
    Errors.phone := Some {| message := "unreachable"; severity := warning |};
    Errors.zipcode := None;
    Errors.street := None
  |}
|}.

(* ------------------------------------------------------------------ *)
(** ** Strings *)

Lemma prefix_app : forall q s,
  String.prefix q s = true <-> exists rest, s = q ++ rest.
Proof.
  induction q as [|c q IH]; intros s.
  - split; [intros _; exists s; reflexivity | intros _; destruct s; reflexivity].
  - destruct s as [|d s]; simpl.
    + split; [discriminate | intros [rest H]; discriminate].
    + destruct (ascii_dec c d) as [->|Hne].
      * rewrite IH. split; intros [rest H]; exists rest.
        -- now rewrite H.
        -- now inversion H.
      * split; [discriminate | intros [rest H]; inversion H; subst; contradiction].
Qed.

Lemma includes_app : forall s q,
  JS.includes s q = true <-> exists before after, s = before ++ q ++ after.
Proof.
  induction s as [|c s IH]; intros q.
  - cbn [JS.includes]. rewrite orb_false_r, prefix_app. split.
    + intros [rest H]. exists EmptyString, rest. exact H.
    + intros [before [after H]]. destruct before; [|discriminate].
      exists after. exact H.
  - cbn [JS.includes]. rewrite orb_true_iff, prefix_app, IH. split.
    + intros [[rest H] | [before [after H]]].
      * exists EmptyString, rest. exact H.
      * exists (String c before), after. simpl. now rewrite H.
    + intros [before [after H]]. destruct before as [|d before].
      * left. exists after. exact H.
      * right. inversion H. exists before, after. reflexivity.
Qed.

Lemma append_assoc : forall a b c : string, (a ++ b) ++ c = a ++ b ++ c.
Proof.
  induction a as [|ch a IH]; intros b c; simpl; [reflexivity | now rewrite IH].
Qed.

Lemma includes_empty : forall s, JS.includes s EmptyString = true.
Proof. intros s. destruct s; reflexivity. Qed.

Lemma value_matches_spec : forall q v,
  value_matches q v = true <-> contains_ci (JS.String_ v) q.
Proof. intros q v. unfold value_matches, contains_ci. apply includes_app. Qed.

(* ------------------------------------------------------------------ *)
(** ** Filter engine *)

Lemma filter_Subsequence : forall (A : Type) (p : A -> bool) (l : list A),
  Subsequence (filter p l) l.
Proof.
  intros A p l. induction l as [|a l IH]; simpl.
  - constructor.
  - destruct (p a); now constructor.
Qed.

Lemma Subsequence_In : forall (A : Type) (l1 l2 : list A) (a : A),
  Subsequence l1 l2 -> In a l1 -> In a l2.
Proof.
  intros A l1 l2 a H. induction H; simpl; intuition.
Qed.

Lemma filteredRecords_Subsequence : forall rs q,
  Subsequence (filteredRecords rs q) rs.
Proof. intros rs q. apply filter_Subsequence. Qed.

Lemma filteredRecords_In : forall rs q r,
  In r (filteredRecords rs q) <-> In r rs /\ record_matches q r = true.
Proof. intros rs q r. apply filter_In. Qed.

Lemma Object_values_scalars : forall r,
  Object_values r =
  (scalar_values r ++ match errors r with
                      | Some _ => [JS.VObject]
                      | None => []
                      end)%list.
Proof.
  intros r. unfold Object_values, scalar_values.
  repeat (rewrite <- app_assoc; simpl). reflexivity.
Qed.

(** What the code matches on: the scalars, and the text of the [errors]
    object when the record has one. *)
Lemma record_matches_split : forall q r,
  record_matches q r =
  scalar_match q r ||
  match errors r with
  | Some _ => value_matches q JS.VObject
  | None => false
  end.
Proof.
  intros q r. unfold record_matches, scalar_match.
  rewrite Object_values_scalars, existsb_app.
  destruct (errors r); simpl; now rewrite ?orb_false_r.
Qed.

Lemma scalar_match_spec : forall q r,
  scalar_match q r = true <->
  exists v, In v (scalar_values r) /\ contains_ci (JS.String_ v) q.
Proof.
  intros q r. unfold scalar_match. rewrite existsb_exists.
  split; intros [v [Hin Hv]]; exists v; split; trivial;
    now apply value_matches_spec.
Qed.

(** On records that carry no [errors] property the code is the filter of
    the specification. *)
Lemma filteredRecords_without_errors : forall rs q,
  (forall r, In r rs -> errors r = None) ->
  filteredRecords rs q = filter_by_scalars rs q.
Proof.
  intros rs q H. unfold filteredRecords, filter_by_scalars.
  apply filter_ext_in. intros r Hr.
  rewrite record_matches_split, (H r Hr). apply orb_false_r.
Qed.

(** Every record that has an [errors] property is kept by a query that
    occurs in the text of a plain object. *)
Lemma errors_object_matches : forall rs r,
  In r rs -> errors r <> None -> In r (filteredRecords rs "object").
Proof.
  intros rs r Hin He. apply filteredRecords_In. split; trivial.
  rewrite record_matches_split. destruct (errors r); [|contradiction].
  apply orb_true_r.
Qed.

Lemma record_matches_empty : forall r, record_matches EmptyString r = true.
Proof.
  intros r. unfold record_matches, Object_values. cbn [app existsb].
  unfold value_matches at 1. cbn [JS.toLowerCase].
  now rewrite includes_empty.
Qed.

(* ------------------------------------------------------------------ *)
(** ** Export pipeline *)

Lemma or_else_text : forall o, JS.or_else o EmptyString = text_or_empty o.
Proof. intros [s|]; [destruct s|]; reflexivity. Qed.

Lemma error_message_spec : forall e field,
  error_message e field = finding_message (JS.chain_opt e field).
Proof.
  intros e field. unfold error_message.
  destruct (JS.chain_opt e field) as [v|]; [|reflexivity].
  simpl. destruct (message v); reflexivity.
Qed.

Lemma error_severity_spec : forall e field,
  error_severity e field = finding_severity (JS.chain_opt e field).
Proof.
  intros e field. unfold error_severity.
  destruct (JS.chain_opt e field) as [v|]; [|reflexivity].
  simpl. destruct (severity v); reflexivity.
Qed.

(** [flattenRecord] builds the prescribed cells under the fixed columns. *)
Lemma flattenRecord_spec : forall r,
  flattenRecord r = combine columns (specified_cells r).
Proof.
  intros r. unfold flattenRecord, specified_cells, field_error.
  rewrite !or_else_text, !error_message_spec, !error_severity_spec.
  reflexivity.
Qed.

Lemma flattenRecord_keys : forall r, JS.Object_keys (flattenRecord r) = columns.
Proof. intros r. reflexivity. Qed.

Lemma flattenRecord_cells : forall r,
  map snd (flattenRecord r) = specified_cells r.
Proof. intros r. rewrite flattenRecord_spec. reflexivity. Qed.

Lemma serialize_row_flattened : forall r,
  Papa.serialize_row true columns (flattenRecord r) = record_line r.
Proof. intros r. rewrite flattenRecord_spec. reflexivity. Qed.

(** A visible sequence that is not empty is written as the header line
    followed by one line per record. *)
Lemma unparse_flattened : forall r rs,
  Papa.unparse (map flattenRecord (r :: rs)) =
  header_line ++ Papa.newline
    ++ String.concat Papa.newline (map record_line (r :: rs)).
Proof.
  intros r rs. cbn [map Papa.unparse]. rewrite flattenRecord_keys.
  unfold Papa.serialize.
  change (negb (Papa.is_nil columns)) with true. cbv iota.
  change (String.concat Papa.delimiter
            (map (fun field => Papa.safe (Some (JS.VString field))) columns))
    with header_line.
  cbn [Papa.is_nil]. rewrite append_assoc. f_equal. f_equal.
  change (flattenRecord r :: map flattenRecord rs)
    with (map flattenRecord (r :: rs)).
  rewrite map_map. f_equal.
  change (record_line r :: map record_line rs) with (map record_line (r :: rs)).
  apply map_ext. intros a. apply serialize_row_flattened.
Qed.

Lemma unparse_nil : Papa.unparse [] = EmptyString.
Proof. reflexivity. Qed.

(* ------------------------------------------------------------------ *)
(** ** Running handlers *)

Lemma state_after_bind : forall (m k : M unit) st,
  state_after (m ;; k) st = state_after k (state_after m st).
Proof.
  intros m k st. unfold state_after, bind.
  destruct (m st) as [[a st1] t1]. simpl.
  destruct (k st1) as [[b st2] t2]. reflexivity.
Qed.

Lemma trace_of_bind : forall (m k : M unit) st,
  trace_of (m ;; k) st = (trace_of m st ++ trace_of k (state_after m st))%list.
Proof.
  intros m k st. unfold trace_of, state_after, bind.
  destruct (m st) as [[a st1] t1]. simpl.
  destruct (k st1) as [[b st2] t2]. reflexivity.
Qed.

Lemma run_cons_state : forall ev evs st,
  state_after (run (ev :: evs)) st = state_after (run evs) (state_after (handle ev) st).
Proof. intros ev evs st. apply state_after_bind. Qed.

Lemma run_cons_trace : forall ev evs st,
  trace_of (run (ev :: evs)) st =
  (trace_of (handle ev) st ++ trace_of (run evs) (state_after (handle ev) st))%list.
Proof. intros ev evs st. apply trace_of_bind. Qed.

(** [exportToCSV] calls no setter: the cells are as they were. *)
Lemma exportToCSV_state : forall st, state_after exportToCSV st = st.
Proof. intros st. reflexivity. Qed.

(** The calls [exportToCSV] makes, in order. *)
Lemma exportToCSV_trace : forall st,
  trace_of exportToCSV st =
  [ NewBlob (export_csv st) "text/csv;charset=utf-8;";
    CreateElement "a";
    CreateObjectURL (export_csv st);
    SetHref (export_csv st);
    SetAttribute "download" exportFileName;
    AppendChild "a";
    Click "a";
    RemoveChild "a" ].
Proof. intros st. reflexivity. Qed.

(** What one event does to the two hover cells. *)
Lemma handle_hover_cells : forall ev st,
  let st' := state_after (handle ev) st in
  (hoveredError st' = hoveredError st /\ tooltipPosition st' = tooltipPosition st)
  \/ (hoveredError st' = None /\ tooltipPosition st' = None)
  \/ (exists msg pos, hoveredError st' = Some msg /\ tooltipPosition st' = Some pos).
Proof.
  intros ev st. destruct ev as [ | [payload|err] | value | field record e | | record | el px py | ];
    try (left; split; reflexivity).
  - right. right. eexists. eexists. split; reflexivity.
  - right. left. split; reflexivity.
  - left. destruct el; split; reflexivity.
Qed.

Lemma handle_hover_consistent : forall ev st,
  hover_consistent st -> hover_consistent (state_after (handle ev) st).
Proof.
  intros ev st H. unfold hover_consistent in *.
  destruct (handle_hover_cells ev st) as [[H1 H2] | [[H1 H2] | [msg [pos [H1 H2]]]]];
    rewrite H1, H2; trivial; split; congruence.
Qed.

Lemma run_hover_consistent : forall evs st,
  hover_consistent st -> hover_consistent (state_after (run evs) st).
Proof.
  induction evs as [|ev evs IH]; intros st H.
  - exact H.
  - rewrite run_cons_state. apply IH. now apply handle_hover_consistent.
Qed.

Lemma initialState_hover_consistent : hover_consistent initialState.
Proof. unfold hover_consistent. simpl. tauto. Qed.


(** What the user can do neither changes the fetch status nor issues a
    request. *)
Lemma user_event_fetch_status : forall ev st,
  user_event ev = true ->
  loading (state_after (handle ev) st) = loading st /\
  error (state_after (handle ev) st) = error st /\
  existsb is_request (trace_of (handle ev) st) = false.
Proof.
  intros ev st H. destruct ev as [ | result | value | field record e | | record | el px py | ];
    try discriminate; try (repeat split; reflexivity).
  destruct el; repeat split; reflexivity.
Qed.

Lemma user_events_fetch_status : forall evs st,
  loading (state_after (run (filter user_event evs)) st) = loading st /\
  error (state_after (run (filter user_event evs)) st) = error st /\
  existsb is_request (trace_of (run (filter user_event evs)) st) = false.
Proof.
  induction evs as [|ev evs IH]; intros st.
  - repeat split; reflexivity.
  - cbn [filter]. destruct (user_event ev) eqn:Hu; [|apply IH].
    rewrite run_cons_state, run_cons_trace, existsb_app.
    destruct (user_event_fetch_status ev st Hu) as [Hl [He Ht]].
    destruct (IH (state_after (handle ev) st)) as [Hl' [He' Ht']].
    rewrite Hl', He', Ht, Ht', Hl, He. repeat split; reflexivity.
Qed.

(* ------------------------------------------------------------------ *)
(** ** Properties of the specification *)

(** The example rows of the specification: a record without optional fields
    and findings, and a record with a critical finding on its email. *)
Example export_of_ann :
  export_csv (loaded [ann]) =
  header_line ++ Papa.newline ++ "1,Ann,a@x.com,,,,,active,,,,,,,,".
Proof. vm_compute. reflexivity. Qed.

Example export_of_bob :
  record_line bob =
  "2,Bob,bob-at-x.com,1 Main St,Springfield,12345,,pending,bad format,critical,,,,,,".
Proof. vm_compute. reflexivity. Qed.

(** C1. For every record set and query, the rows [exportToCSV] hands to the
    serializer correspond one to one and in order to the records of the
    filtered sequence, and to no other record.  Every row has exactly the
    fixed columns in the fixed order; its cells are the record's id, name,
    email and status, the optional scalars with the empty string for an
    absent one, and for each watched field the message and severity of its
    Finding or two empty strings when there is none.  Every cell after the
    id is text, never a missing value.  The document the handler offers is
    the serializer's output for these rows: when there is a visible record,
    the header line of the fixed columns and then one line per record. *)
Theorem C1_export_rows_of_visible_records : forall st,
  let visible := filteredRecords (records st) (searchQuery st) in
  length (flattenedData st) = length visible /\
  Forall2
    (fun record row =>
       JS.Object_keys row = columns /\
       map snd row = specified_cells record /\
       forallb (fun c => is_text (JS.get c row)) (tl columns) = true)
    visible (flattenedData st) /\
  In (NewBlob (export_csv st) "text/csv;charset=utf-8;")
    (trace_of exportToCSV st) /\
  match visible with
  | [] => export_csv st = EmptyString
  | _ :: _ =>
      export_csv st =
      header_line ++ Papa.newline
        ++ String.concat Papa.newline (map record_line visible)
  end.
Proof.
  intros st visible. unfold export_csv, flattenedData. fold visible.
  split; [apply length_map|]. split; [|split].
  - induction visible as [|r rs IH]; simpl; constructor; trivial.
    split; [apply flattenRecord_keys|]. split; [apply flattenRecord_cells|].
    rewrite flattenRecord_spec. reflexivity.
  - rewrite exportToCSV_trace. left. reflexivity.
  - destruct visible as [|r rs]; [apply unparse_nil | apply unparse_flattened].
Qed.

(** C2, evaluated on the code.  With the records [ann] (no [errors]
    property) and [bob] (an [errors] property) and the query [object], the
    code keeps [bob] although none of his scalar values contains the query:
    the filter of the specification keeps nothing.  The match comes from
    the text [String] gives the [errors] object. *)
Theorem C2_errors_object_text_is_searched :
  filteredRecords [ann; bob] "object" = [bob] /\
  filter_by_scalars [ann; bob] "object" = [] /\
  (forall v, In v (scalar_values bob) -> ~ contains_ci (JS.String_ v) "object").
Proof.
  split; [vm_compute; reflexivity|]. split; [vm_compute; reflexivity|].
  intros v Hin Hc.
  assert (H : scalar_match "object" bob = true).
  { apply scalar_match_spec. exists v. split; assumption. }
  vm_compute in H. discriminate.
Qed.

(** C3, as the specification states it, fails: with an empty store, and
    with a store whose only record does not match the query, the document
    is not the header line. *)
Lemma C3_empty_export_is_not_the_header :
  filteredRecords (records (loaded [])) (searchQuery (loaded [])) = [] /\
  export_csv (loaded []) <> header_line /\
  filteredRecords [ann] "zzz" = [] /\
  export_csv (state_after (handle (SearchChange "zzz")) (loaded [ann]))
    <> header_line.
Proof.
  split; [reflexivity|]. split; [vm_compute; discriminate|].
  split; [vm_compute; reflexivity | vm_compute; discriminate].
Qed.

(** C3, amended.  When the visible sequence is empty, triggering the export
    is no error: the handler runs to its end, offers the download under the
    fixed file name and leaves the cells alone.  The document it offers is
    empty: it has no line at all, the header included, because the
    serializer takes the columns from the first row. *)
Theorem C3_empty_export_is_empty_document : forall st,
  filteredRecords (records st) (searchQuery st) = [] ->
  export_csv st = EmptyString /\
  state_after exportToCSV st = st /\
  trace_of exportToCSV st =
  [ NewBlob EmptyString "text/csv;charset=utf-8;";
    CreateElement "a";
    CreateObjectURL EmptyString;
    SetHref EmptyString;
    SetAttribute "download" "data_export_with_errors.csv";
    AppendChild "a";
    Click "a";
    RemoveChild "a" ].
Proof.
  intros st H.
  assert (Hcsv : export_csv st = EmptyString).
  { unfold export_csv, flattenedData. rewrite H. apply unparse_nil. }
  split; [exact Hcsv|]. split; [apply exportToCSV_state|].
  rewrite exportToCSV_trace, Hcsv. reflexivity.
Qed.

Lemma C3_empty_export_witness :
  filteredRecords (records (loaded [])) (searchQuery (loaded [])) = [] /\
  export_csv (loaded []) = EmptyString.
Proof.
  split; [reflexivity|].
  exact (proj1 (C3_empty_export_is_empty_document (loaded []) eq_refl)).
Defined.

(** C4. Filtering with the empty query returns the record set itself, in
    its order. *)
Theorem C4_empty_query_keeps_every_record : forall rs,
  filteredRecords rs EmptyString = rs.
Proof.
  intros rs. unfold filteredRecords. induction rs as [|r rs IH]; simpl.
  - reflexivity.
  - rewrite record_matches_empty, IH. reflexivity.
Qed.

(** C5. The colour of a field is a function of its optional Finding alone:
    a critical Finding gives the class of the critical tier, a warning
    Finding that of the warning tier, no Finding that of the none tier, and
    the three classes differ from one another. *)
Theorem C5_severity_resolver :
  (forall finding,
     getFieldColor (JS.chain finding severity) = tier_class (severity_tier finding)) /\
  (forall msg,
     getFieldColor (JS.chain (Some {| message := msg; severity := critical |}) severity)
     = tier_class TierCritical) /\
  (forall msg,
     getFieldColor (JS.chain (Some {| message := msg; severity := warning |}) severity)
     = tier_class TierWarning) /\
  getFieldColor (JS.chain None severity) = tier_class TierNone /\
  tier_class TierCritical <> tier_class TierWarning /\
  tier_class TierCritical <> tier_class TierNone /\
  tier_class TierWarning <> tier_class TierNone.
Proof.
  split.
  - intros [[msg [|]]|]; reflexivity.
  - repeat split; try reflexivity; discriminate.
Qed.

(** C6. After every sequence of events, the hover operations among them,
    [hoveredError] is set if and only if [tooltipPosition] is set; and each
    hover operation alone establishes this from any state of the cells. *)
Theorem C6_hover_cells_set_together :
  (forall evs, hover_consistent (state_after (run evs) initialState)) /\
  (forall st e errorMessage,
     hover_consistent (state_after (handleMouseMove e errorMessage) st)) /\
  (forall st, hover_consistent (state_after handleMouseLeave st)).
Proof.
  split; [|split].
  - intros evs. apply run_hover_consistent, initialState_hover_consistent.
  - intros st e errorMessage. unfold hover_consistent. simpl. split; discriminate.
  - intros st. unfold hover_consistent. simpl. tauto.
Qed.

(** C7. In every state, an open detail view included, a click whose
    target is the scrim itself clears [modalData] and so closes the view,
    while a click whose target is the content of the view (the panel, the
    heading, the list of errors or one of its items) changes no cell, so
    the view stays open.  The Close button is the explicit dismiss action
    and clears [modalData] as well. *)
Theorem C7_modal_click : forall st px py,
  modalData (state_after (handle (ModalClick Scrim px py)) st) = None /\
  modalData (state_after (handle (ModalClick CloseButton px py)) st) = None /\
  state_after (handle (ModalClick Panel px py)) st = st /\
  state_after (handle (ModalClick Heading px py)) st = st /\
  state_after (handle (ModalClick ErrorList px py)) st = st /\
  (forall field, state_after (handle (ModalClick (ErrorItem field) px py)) st = st).
Proof.
  intros st px py. repeat split; try reflexivity.
  all: destruct st; reflexivity.
Qed.

(** C8. Triggering the export changes none of the cells: records, loading
    and error status, query, open record, hover message and pointer
    position are after the export what they were before it. *)
Theorem C8_export_changes_no_cell : forall st,
  state_after (handle ExportClick) st = st /\
  exists csv, In (NewBlob csv "text/csv;charset=utf-8;") (trace_of (handle ExportClick) st).
Proof.
  intros st. split; [apply exportToCSV_state|].
  exists (export_csv st). simpl handle. rewrite exportToCSV_trace. left. reflexivity.
Qed.

(** C9. Whatever a failed fetch carries, settling it stores the one fixed
    message, turns loading off, keeps the records, and logs the failure and
    nothing else: no request is issued.  The component then renders the
    message in place of the table, and it stays so under everything the
    user can do, none of which issues a request either. *)
Theorem C9_fetch_failure_is_handled_uniformly : forall st err,
  let settled := state_after (handle (FetchSettled (Rejected err))) st in
  error settled = Some "Error fetching data. Please try again later." /\
  loading settled = false /\
  records settled = records st /\
  trace_of (handle (FetchSettled (Rejected err))) st = [ConsoleError err] /\
  render settled = ErrorView "Error fetching data. Please try again later." /\
  (forall evs,
     render (state_after (run (filter user_event evs)) settled)
     = ErrorView "Error fetching data. Please try again later." /\
     existsb is_request (trace_of (run (filter user_event evs)) settled) = false).
Proof.
  intros st err settled.
  assert (He : error settled = Some fetchErrorText) by reflexivity.
  assert (Hl : loading settled = false) by reflexivity.
  repeat match goal with |- _ /\ _ => split end; try reflexivity.
  - intros evs.
    destruct (user_events_fetch_status evs settled) as [Hl' [He' Ht]].
    split; [|exact Ht].
    unfold render. rewrite Hl', He', Hl, He. reflexivity.
Qed.



(* ------------------------------------------------------------------ *)
(** ** Further properties of the filter *)

Lemma is_ascii_text_app : forall a b,
  is_ascii_text (a ++ b) = is_ascii_text a && is_ascii_text b.
Proof.
  induction a as [|c a IH]; intros b; simpl; [reflexivity|].
  now rewrite IH, andb_assoc.
Qed.

(** Lowering distributes over concatenation on ASCII text. *)
Lemma toLowerCase_app : forall a b,
  is_ascii_text a = true -> is_ascii_text b = true ->
  JS.toLowerCase (a ++ b) = JS.toLowerCase a ++ JS.toLowerCase b.
Proof.
  induction a as [|c a IH]; intros b Ha Hb; simpl; [reflexivity|].
  simpl in Ha. apply andb_true_iff in Ha. destruct Ha as [_ Ha].
  now rewrite IH.
Qed.

Lemma lower_char_idem : forall c, JS.lower_char (JS.lower_char c) = JS.lower_char c.
Proof. intros [[] [] [] [] [] [] [] []]; reflexivity. Qed.

Lemma toLowerCase_idem : forall s,
  JS.toLowerCase (JS.toLowerCase s) = JS.toLowerCase s.
Proof.
  induction s as [|c s IH]; simpl; [reflexivity|].
  now rewrite lower_char_idem, IH.
Qed.

Lemma includes_inner : forall s a q b,
  JS.includes s (a ++ q ++ b) = true -> JS.includes s q = true.
Proof.
  intros s a q b H. apply includes_app in H. destruct H as [u [v H]].
  apply includes_app. exists (u ++ a), (b ++ v).
  rewrite H, !append_assoc. reflexivity.
Qed.

Lemma record_matches_inner : forall a q b r,
  is_ascii_text (a ++ q ++ b) = true ->
  record_matches (a ++ q ++ b) r = true -> record_matches q r = true.
Proof.
  intros a q b r Hascii. unfold record_matches. rewrite !existsb_exists.
  intros [v [Hin Hv]]. exists v. split; trivial.
  rewrite !is_ascii_text_app, !andb_true_iff in Hascii.
  destruct Hascii as [Ha [Hq Hb]].
  unfold value_matches in *.
  rewrite (toLowerCase_app a (q ++ b)) in Hv;
    [|exact Ha | now rewrite is_ascii_text_app, Hq, Hb].
  rewrite (toLowerCase_app q b Hq Hb) in Hv.
  now apply includes_inner in Hv.
Qed.

Lemma filter_Subsequence_impl : forall (A : Type) (p1 p2 : A -> bool) (l : list A),
  (forall a, p2 a = true -> p1 a = true) ->
  Subsequence (filter p2 l) (filter p1 l).
Proof.
  intros A p1 p2 l H. induction l as [|a l IH]; simpl.
  - constructor.
  - destruct (p2 a) eqn:H2.
    + rewrite (H a H2). now constructor.
    + destruct (p1 a); [now constructor | exact IH].
Qed.

(** X1. On ASCII text, typing more can only remove rows: when the values
    of the records and the query are ASCII text, the records kept by a
    query that contains [q] are, in order, among the records kept by [q].
    (Outside ASCII the lower-case form of a letter can depend on the
    letters around it, and the property is not claimed there.) *)
Theorem longer_query_keeps_fewer : forall rs q before after,
  forallb ascii_record rs = true ->
  is_ascii_text (before ++ q ++ after) = true ->
  Subsequence (filteredRecords rs (before ++ q ++ after)) (filteredRecords rs q).
Proof.
  intros rs q before after _ Hq. apply filter_Subsequence_impl.
  intros r. now apply record_matches_inner.
Qed.

Lemma longer_query_keeps_fewer_witness :
  forallb ascii_record [ann; bob; cyd] = true /\
  is_ascii_text ("c" ++ "yd" ++ "@") = true /\
  Subsequence (filteredRecords [ann; bob; cyd] ("c" ++ "yd" ++ "@"))
    (filteredRecords [ann; bob; cyd] "yd").
Proof.
  split; [reflexivity|]. split; [reflexivity|].
  apply (longer_query_keeps_fewer [ann; bob; cyd] "yd" "c" "@"); reflexivity.
Defined.

(** X2. The letter case of the query does not matter: a query and its
    lower-case form keep the same records. *)
Theorem query_case_is_ignored : forall rs q,
  filteredRecords rs (JS.toLowerCase q) = filteredRecords rs q.
Proof.
  intros rs q. apply filter_ext. intros r. unfold record_matches.
  f_equal. unfold value_matches. now rewrite toLowerCase_idem.
Qed.

(** X3. What the filter keeps, exactly: a record of the store is kept when
    one of its scalar values contains the query without regard to case, or
    when it has an [errors] property and the query occurs in the text
    [[object Object]]; nothing else is kept. *)
Theorem filteredRecords_exact : forall rs q r,
  In r (filteredRecords rs q) <->
  In r rs /\
  ((exists v, In v (scalar_values r) /\ contains_ci (JS.String_ v) q)
   \/ (errors r <> None /\ contains_ci "[object Object]" q)).
Proof.
  intros rs q r. rewrite filteredRecords_In, record_matches_split, orb_true_iff.
  rewrite scalar_match_spec.
  assert (He : (match errors r with
                | Some _ => value_matches q JS.VObject
                | None => false
                end) = true <->
               errors r <> None /\ contains_ci "[object Object]" q).
  { destruct (errors r) as [e|].
    - rewrite value_matches_spec. simpl. split; [intros H; split; [discriminate | exact H] | tauto].
    - split; [discriminate | intros [H _]; contradiction]. }
  rewrite He. reflexivity.
Qed.

(* ------------------------------------------------------------------ *)
(** ** Further properties of the fetch lifecycle and of [render] *)

(** What one event does to the three cells of the fetch. *)
Lemma handle_fetch_cells : forall ev st,
  let st' := state_after (handle ev) st in
  (not_settled ev = true /\
   loading st' = loading st /\ records st' = records st /\ error st' = error st)
  \/ (not_settled ev = false /\ loading st' = false /\
      (error st' = None \/ error st' = Some fetchErrorText)).
Proof.
  intros ev st.
  destruct ev as [ | [payload|err] | value | field record e | | record | el px py | ];
    try (left; repeat split; reflexivity).
  - right. repeat split; try reflexivity. left. reflexivity.
  - right. repeat split; try reflexivity. right. reflexivity.
  - left. destruct el; repeat split; reflexivity.
Qed.

Lemma run_not_settled : forall evs st,
  loading (state_after (run (filter not_settled evs)) st) = loading st /\
  records (state_after (run (filter not_settled evs)) st) = records st /\
  error (state_after (run (filter not_settled evs)) st) = error st.
Proof.
  induction evs as [|ev evs IH]; intros st.
  - repeat split; reflexivity.
  - cbn [filter]. destruct (not_settled ev) eqn:Hn; [|apply IH].
    rewrite run_cons_state.
    destruct (IH (state_after (handle ev) st)) as [Hl [Hr He]].
    destruct (handle_fetch_cells ev st) as [[_ [Hl1 [Hr1 He1]]] | [Hs _]];
      [|congruence].
    rewrite Hl, Hr, He, Hl1, Hr1, He1. repeat split; reflexivity.
Qed.

(** X4. A fetch that succeeds replaces the records by the payload, whatever
    was stored, clears the error, ends loading, logs nothing and leaves the
    other cells alone; the table of the payload's visible records is what
    the component then renders. *)
Theorem fetch_success_replaces_the_records : forall st payload,
  let settled := state_after (handle (FetchSettled (Resolved payload))) st in
  records settled = payload /\
  error settled = None /\
  loading settled = false /\
  modalData settled = modalData st /\
  searchQuery settled = searchQuery st /\
  hoveredError settled = hoveredError st /\
  tooltipPosition settled = tooltipPosition st /\
  trace_of (handle (FetchSettled (Resolved payload))) st = [] /\
  render settled =
  TableView (filteredRecords payload (searchQuery st)) (tooltip st) (modalData st).
Proof. intros st payload settled. repeat split; reflexivity. Qed.

(** X5. Until the fetch settles the component renders the loading view,
    with no record and no error stored, whatever else happens: there is no
    timeout and no other way out of loading. *)
Theorem loading_until_the_fetch_settles : forall evs,
  let st := state_after (run (filter not_settled evs)) initialState in
  render st = LoadingView /\ records st = [] /\ error st = None.
Proof.
  intros evs st. destruct (run_not_settled evs initialState) as [Hl [Hr He]].
  fold st in Hl, Hr, He. unfold render. rewrite Hl. repeat split; assumption.
Qed.

(** X6. Loading never comes back: once it is off it stays off under every
    sequence of events. *)
Theorem loading_never_returns : forall evs st,
  loading st = false -> loading (state_after (run evs) st) = false.
Proof.
  induction evs as [|ev evs IH]; intros st H.
  - exact H.
  - rewrite run_cons_state. apply IH.
    destruct (handle_fetch_cells ev st) as [[_ [Hl _]] | [_ [Hl _]]];
      [now rewrite Hl | exact Hl].
Qed.

Lemma loading_never_returns_witness :
  loading (loaded [ann]) = false /\
  loading (state_after (run [SearchChange "a"; ExportClick; Mount]) (loaded [ann]))
  = false.
Proof.
  split; [reflexivity|].
  exact (loading_never_returns [SearchChange "a"; ExportClick; Mount]
           (loaded [ann]) eq_refl).
Defined.

Lemma run_fetch_invariant : forall evs st,
  (error st = None \/ error st = Some fetchErrorText) ->
  (loading st = true -> records st = [] /\ error st = None) ->
  (error (state_after (run evs) st) = None
   \/ error (state_after (run evs) st) = Some fetchErrorText) /\
  (loading (state_after (run evs) st) = true ->
   records (state_after (run evs) st) = [] /\ error (state_after (run evs) st) = None).
Proof.
  induction evs as [|ev evs IH]; intros st He Hl.
  - split; assumption.
  - rewrite run_cons_state. apply IH;
      destruct (handle_fetch_cells ev st) as [[_ [Hl1 [Hr1 He1]]] | [_ [Hl1 He1]]].
    + now rewrite He1.
    + exact He1.
    + now rewrite Hl1, Hr1, He1.
    + rewrite Hl1. discriminate.
Qed.

(** X7. In every state the component reaches, the stored error is either
    absent or the one fixed message, so the error view never shows another
    text; and while loading is on, no record and no error is stored. *)
Theorem only_the_fixed_message_is_shown : forall evs,
  let st := state_after (run evs) initialState in
  (error st = None \/ error st = Some fetchErrorText) /\
  (loading st = true -> records st = [] /\ error st = None) /\
  (forall text, render st = ErrorView text -> text = fetchErrorText).
Proof.
  intros evs st.
  destruct (run_fetch_invariant evs initialState) as [He Hl].
  { left. reflexivity. }
  { intros _. split; reflexivity. }
  fold st in He, Hl. split; [exact He|]. split; [exact Hl|].
  intros text. unfold render. destruct (loading st); [discriminate|].
  destruct He as [He|He]; rewrite He; simpl; [discriminate|].
  intros H. now inversion H.
Qed.

(** X8. When the table is rendered, its rows are records of the store in
    their order, the fetch has settled without a stored message, and the
    modal shown is the one of [modalData]. *)
Theorem table_rows_come_from_the_store : forall st rows tip modal,
  render st = TableView rows tip modal ->
  Subsequence rows (records st) /\
  rows = filteredRecords (records st) (searchQuery st) /\
  loading st = false /\
  JS.truthy (error st) = false /\
  modal = modalData st.
Proof.
  intros st rows tip modal. unfold render.
  destruct (loading st); [discriminate|].
  destruct (JS.truthy (error st)); [discriminate|].
  intros H. inversion H; subst.
  repeat split; trivial. apply filteredRecords_Subsequence.
Qed.

Lemma table_rows_come_from_the_store_witness :
  render (loaded [ann; bob]) = TableView [ann; bob] None None /\
  Subsequence [ann; bob] (records (loaded [ann; bob])).
Proof.
  split; [vm_compute; reflexivity|].
  exact (proj1 (table_rows_come_from_the_store (loaded [ann; bob])
                  [ann; bob] None None eq_refl)).
Defined.

(* ------------------------------------------------------------------ *)
(** ** Further properties of the tooltip, the modal and the export *)



(** X10. Hover events overwrite one another: the state after a move or a
    leave does not depend on the hover event before it, and leaving always
    takes the tooltip away. *)
Theorem hover_is_last_write_wins : forall st f1 r1 e1 f2 r2 e2,
  state_after (handle (CellMouseMove f2 r2 e2))
    (state_after (handle (CellMouseMove f1 r1 e1)) st)
  = state_after (handle (CellMouseMove f2 r2 e2)) st /\
  state_after (handle (CellMouseMove f2 r2 e2))
    (state_after (handle CellMouseLeave) st)
  = state_after (handle (CellMouseMove f2 r2 e2)) st /\
  state_after (handle CellMouseLeave)
    (state_after (handle (CellMouseMove f1 r1 e1)) st)
  = state_after (handle CellMouseLeave) st /\
  tooltip (state_after (handle CellMouseLeave) st) = None.
Proof. intros. repeat split; reflexivity. Qed.

(** X11. Opening a detail view and dismissing it, by the scrim or by the
    Close button, gives back the state from before when no view was open;
    opening a second view replaces the first, so one at most is open. *)
Theorem open_then_dismiss_restores : forall st record other px py,
  modalData st = None ->
  state_after (handle (ModalClick Scrim px py))
    (state_after (handle (ViewErrorsClick record)) st) = st /\
  state_after (handle (ModalClick CloseButton px py))
    (state_after (handle (ViewErrorsClick record)) st) = st /\
  state_after (handle (ViewErrorsClick other))
    (state_after (handle (ViewErrorsClick record)) st)
  = state_after (handle (ViewErrorsClick other)) st.
Proof.
  intros st record other px py H. destruct st; simpl in H; subst.
  repeat split; reflexivity.
Qed.

Lemma open_then_dismiss_restores_witness :
  modalData (loaded [ann; bob]) = None /\
  state_after (handle (ModalClick Scrim 5 5))
    (state_after (handle (ViewErrorsClick bob)) (loaded [ann; bob]))
  = loaded [ann; bob].
Proof.
  split; [reflexivity|].
  exact (proj1 (open_then_dismiss_restores (loaded [ann; bob]) bob ann 5 5 eq_refl)).
Defined.

Lemma view_event_keeps_data : forall ev st,
  view_event ev = true ->
  records (state_after (handle ev) st) = records st /\
  searchQuery (state_after (handle ev) st) = searchQuery st.
Proof.
  intros ev st H. destruct ev as [ | result | value | field record e | | record | el px py | ];
    try discriminate; try (split; reflexivity).
  destruct el; split; reflexivity.
Qed.

Lemma run_view_events_keep_data : forall evs st,
  records (state_after (run (filter view_event evs)) st) = records st /\
  searchQuery (state_after (run (filter view_event evs)) st) = searchQuery st.
Proof.
  induction evs as [|ev evs IH]; intros st.
  - split; reflexivity.
  - cbn [filter]. destruct (view_event ev) eqn:Hv; [|apply IH].
    rewrite run_cons_state.
    destruct (IH (state_after (handle ev) st)) as [Hr Hq].
    destruct (view_event_keeps_data ev st Hv) as [Hr1 Hq1].
    rewrite Hr, Hq, Hr1, Hq1. split; reflexivity.
Qed.

(** X12. The exported document is a function of the records and the query
    alone: hovering, opening and closing detail views, and earlier exports
    change neither the visible rows nor the document of the next export. *)
Theorem export_ignores_view_events : forall evs st,
  export_csv (state_after (run (filter view_event evs)) st) = export_csv st /\
  trace_of exportToCSV (state_after (run (filter view_event evs)) st)
  = trace_of exportToCSV st.
Proof.
  intros evs st. destruct (run_view_events_keep_data evs st) as [Hr Hq].
  assert (H : export_csv (state_after (run (filter view_event evs)) st) = export_csv st).
  { unfold export_csv, flattenedData. now rewrite Hr, Hq. }
  split; [exact H|]. rewrite !exportToCSV_trace, H. reflexivity.
Qed.

(* ------------------------------------------------------------------ *)
(** ** Properties of the badge, the table cells and the modal listing *)


Lemma placeholder_cases : forall o,
  JS.or_else o "N/A" <> EmptyString /\
  (JS.or_else o EmptyString = EmptyString -> JS.or_else o "N/A" = "N/A") /\
  (JS.or_else o EmptyString <> EmptyString ->
   JS.or_else o "N/A" = JS.or_else o EmptyString) /\
  (JS.or_else o "N/A" = "N/A" <->
   JS.or_else o EmptyString = EmptyString \/ JS.or_else o EmptyString = "N/A").
Proof.
  intros [[|c s]|]; simpl.
  - split; [discriminate|]. split; [reflexivity|].
    split; [intros E; now contradiction E | tauto].
  - split; [discriminate|]. split; [discriminate|].
    split; [reflexivity|]. split.
    + intros E. right. exact E.
    + intros [E|E]; [discriminate | exact E].
  - split; [discriminate|]. split; [reflexivity|].
    split; [intros E; now contradiction E | tauto].
Qed.

(** X14. A street, zipcode or phone cell of the table is never empty.  It
    shows [N/A] where the export writes the empty string for that field
    (the value absent or empty) and the exported text everywhere else; so
    the cell reads [N/A] exactly when the exported text is empty or is
    itself [N/A], and the table alone does not tell the two apart. *)
Theorem optional_cell_placeholder : forall field record,
  field <> FEmail ->
  JS.get (field_key field) (flattenRecord record)
  = Some (JS.VString (exported_text field record)) /\
  cell_text field record <> EmptyString /\
  (exported_text field record = EmptyString -> cell_text field record = "N/A") /\
  (exported_text field record <> EmptyString ->
   cell_text field record = exported_text field record) /\
  (cell_text field record = "N/A" <->
   exported_text field record = EmptyString
   \/ exported_text field record = "N/A").
Proof.
  intros field record H. split; [destruct field; reflexivity|].
  destruct field; [contradiction | | |]; unfold cell_text, exported_text;
    apply placeholder_cases.
Qed.

Lemma optional_cell_placeholder_witness :
  FStreet <> FEmail /\
  cell_text FStreet cyd = "N/A" /\
  cell_text FPhone cyd = "555-0100".
Proof.
  split; [discriminate|]. split.
  - apply (proj1 (proj2 (proj2
      (optional_cell_placeholder FStreet cyd ltac:(discriminate))))).
    reflexivity.
  - apply (proj1 (proj2 (proj2 (proj2
      (optional_cell_placeholder FPhone cyd ltac:(discriminate)))))).
    discriminate.
Defined.

Lemma Object_entries_fields : forall e key v,
  In (key, v) (Object_entries e) <->
  exists field, key = field_key field /\
    JS.chain_opt e
      match field with
      | FEmail => Errors.email
      | FStreet => Errors.street
      | FZipcode => Errors.zipcode
      | FPhone => Errors.phone
      end = Some v.
Proof.
  intros e key v. destruct e as [[em ph zi st]|]; simpl.
  - split.
    + intros H. repeat (apply in_app_or in H; destruct H as [H|H]).
      * destruct em; simpl in H; [|contradiction]. destruct H as [H|[]].
        inversion H; subst. now exists FEmail.
      * destruct ph; simpl in H; [|contradiction]. destruct H as [H|[]].
        inversion H; subst. now exists FPhone.
      * destruct zi; simpl in H; [|contradiction]. destruct H as [H|[]].
        inversion H; subst. now exists FZipcode.
      * destruct st; simpl in H; [|contradiction]. destruct H as [H|[]].
        inversion H; subst. now exists FStreet.
    + intros [field [-> H]]. rewrite !in_app_iff.
      destruct field; simpl in H; subst; simpl; tauto.
  - split; [contradiction | intros [field [_ H]]; discriminate].
Qed.

(** X15. The modal lists the Findings of the record and nothing else: one
    entry for each watched field that has a Finding, with the Finding's
    message and the colour the field's table cell has; no entry is in the
    colour of a field without a Finding, and a record without Findings has
    an empty list. *)
Theorem modal_lists_the_findings : forall record,
  modal_title (renderModal record) = "Error Summary for " ++ name record /\
  (forall entry,
     In entry (modal_entries (renderModal record)) <->
     exists field v,
       field_error field record = Some v /\
       entry = {| entry_field := field_key field;
                  entry_color := cell_color field record;
                  entry_message := message v |}) /\
  (forall entry,
     In entry (modal_entries (renderModal record)) ->
     entry_color entry <> getFieldColor None) /\
  length (modal_entries (renderModal record)) <= 4.
Proof.
  intros record. split; [reflexivity|].
  assert (Hiff : forall entry,
     In entry (modal_entries (renderModal record)) <->
     exists field v,
       field_error field record = Some v /\
       entry = {| entry_field := field_key field;
                  entry_color := cell_color field record;
                  entry_message := message v |}).
  { intros entry. unfold renderModal. cbn [modal_entries]. rewrite in_map_iff. split.
    - intros [[key v] [He Hin]]. apply Object_entries_fields in Hin.
      destruct Hin as [field [-> Hf]]. exists field, v. split; [exact Hf|].
      unfold cell_color, field_error. rewrite Hf. symmetry. exact He.
    - intros [field [v [Hf ->]]]. exists (field_key field, v). split.
      + unfold cell_color. rewrite Hf. reflexivity.
      + apply Object_entries_fields. exists field. split; [reflexivity | exact Hf]. }
  split; [exact Hiff|]. split.
  - intros entry Hin. apply Hiff in Hin. destruct Hin as [field [v [Hf ->]]].
    unfold cell_color. rewrite Hf. simpl. destruct (severity v); discriminate.
  - unfold renderModal. cbn [modal_entries]. rewrite length_map.
    destruct (errors record) as [[[em|] [ph|] [zi|] [st|]]|]; simpl; lia.
Qed.

(* ------------------------------------------------------------------ *)
(** ** What is searched, what is exported, what leaves the component *)

Lemma includes_self : forall s, JS.includes s s = true.
Proof.
  intros s. apply includes_app. exists EmptyString, EmptyString.
  simpl. induction s as [|c s IH]; simpl; [reflexivity | now rewrite <- IH].
Qed.

Lemma value_in_record_matches : forall r v,
  In v (Object_values r) -> record_matches (JS.String_ v) r = true.
Proof.
  intros r v H. unfold record_matches. apply existsb_exists.
  exists v. split; [exact H|]. unfold value_matches. apply includes_self.
Qed.

(** X16. The export writes the rows of the table: whenever the table is
    rendered, the rows handed to the serializer are the flattened rows of
    the table, in the table's order. *)
Theorem export_rows_are_the_table_rows : forall st rows tip modal,
  render st = TableView rows tip modal ->
  flattenedData st = map flattenRecord rows /\
  export_csv st = Papa.unparse (map flattenRecord rows).
Proof.
  intros st rows tip modal. unfold render, export_csv, flattenedData.
  destruct (loading st); [discriminate|].
  destruct (JS.truthy (error st)); [discriminate|].
  intros H. inversion H; subst. split; reflexivity.
Qed.

Lemma export_rows_are_the_table_rows_witness :
  render (state_after (handle (SearchChange "BOB")) (loaded [ann; bob]))
  = TableView [bob] None None /\
  flattenedData (state_after (handle (SearchChange "BOB")) (loaded [ann; bob]))
  = map flattenRecord [bob].
Proof.
  split; [vm_compute; reflexivity|].
  exact (proj1 (export_rows_are_the_table_rows
                  (state_after (handle (SearchChange "BOB")) (loaded [ann; bob]))
                  [bob] None None eq_refl)).
Defined.

(** X17. A record of the store is found by each of its own values written
    in full: by its id in decimal, its name, its email, its status, and by
    street, city, zipcode and phone when it has them, the city included
    although the table has no column for it. *)
Theorem record_is_found_by_its_values : forall rs r,
  In r rs ->
  In r (filteredRecords rs (JS.String_ (JS.VNumber (id r)))) /\
  In r (filteredRecords rs (name r)) /\
  In r (filteredRecords rs (email r)) /\
  In r (filteredRecords rs (status r)) /\
  (forall s, street r = Some s -> In r (filteredRecords rs s)) /\
  (forall s, city r = Some s -> In r (filteredRecords rs s)) /\
  (forall s, zipcode r = Some s -> In r (filteredRecords rs s)) /\
  (forall s, phone r = Some s -> In r (filteredRecords rs s)).
Proof.
  intros rs r Hin.
  assert (H : forall v, In v (Object_values r) ->
                        In r (filteredRecords rs (JS.String_ v))).
  { intros v Hv. apply filteredRecords_In. split; [exact Hin|].
    now apply value_in_record_matches. }
  assert (Hs : forall v, In v (scalar_values r) ->
                         In r (filteredRecords rs (JS.String_ v))).
  { intros v Hv. apply H. rewrite Object_values_scalars.
    apply in_or_app. left. exact Hv. }
  unfold scalar_values in Hs.
  repeat split.
  - apply (Hs (JS.VNumber (id r))). simpl. tauto.
  - apply (Hs (JS.VString (name r))). simpl. tauto.
  - apply (Hs (JS.VString (email r))). simpl. tauto.
  - apply (Hs (JS.VString (status r))). rewrite !in_app_iff. simpl. tauto.
  - intros s E. apply (Hs (JS.VString s)). rewrite !in_app_iff, E. simpl. tauto.
  - intros s E. apply (Hs (JS.VString s)). rewrite !in_app_iff, E. simpl. tauto.
  - intros s E. apply (Hs (JS.VString s)). rewrite !in_app_iff, E. simpl. tauto.
  - intros s E. apply (Hs (JS.VString s)). rewrite !in_app_iff, E. simpl. tauto.
Qed.

Lemma record_is_found_by_its_values_witness :
  In bob [ann; bob] /\ In bob (filteredRecords [ann; bob] "Springfield").
Proof.
  split; [right; left; reflexivity|].
  exact (proj1 (proj2 (proj2 (proj2 (proj2 (proj2
    (record_is_found_by_its_values [ann; bob] bob
       (or_intror (or_introl eq_refl)))))))) "Springfield" eq_refl).
Defined.

(** The calls one event makes, by kind. *)
Lemma handle_trace_kinds : forall ev st,
  filter is_request (trace_of (handle ev) st)
  = (if is_mount ev then [HttpGet "/api/data"] else []) /\
  filter is_log (trace_of (handle ev) st) = rejections [ev] /\
  filter is_click (trace_of (handle ev) st)
  = (if is_export ev then [Click "a"] else []) /\
  filter is_append (trace_of (handle ev) st)
  = (if is_export ev then [AppendChild "a"] else []) /\
  filter is_remove (trace_of (handle ev) st)
  = (if is_export ev then [RemoveChild "a"] else []) /\
  forallb sets_download_name (trace_of (handle ev) st) = true.
Proof.
  intros ev st.
  destruct ev as [ | [payload|err] | value | field record e | | record | el px py | ];
    try (repeat split; reflexivity).
  destruct el; repeat split; reflexivity.
Qed.

(** X18. The component talks to the network and to the console only through
    the fetch: a history of events issues one GET of [/api/data] per mount
    and no other request, and writes to the console the failures of the
    rejected fetches, in their order, and nothing else. *)
Theorem requests_and_logs_come_from_the_fetch : forall evs st,
  filter is_request (trace_of (run evs) st)
  = repeat (HttpGet "/api/data") (length (filter is_mount evs)) /\
  filter is_log (trace_of (run evs) st) = rejections evs.
Proof.
  induction evs as [|ev evs IH]; intros st.
  - split; reflexivity.
  - rewrite run_cons_trace, !filter_app.
    destruct (handle_trace_kinds ev st) as [Hr [Hl _]].
    destruct (IH (state_after (handle ev) st)) as [IHr IHl].
    rewrite Hr, Hl, IHr, IHl. split.
    + cbn [filter]. destruct (is_mount ev); reflexivity.
    + unfold rejections. cbn [flat_map]. now rewrite app_nil_r.
Qed.

(** X19. Each click on the export button clicks one link, and the link it
    appends to the document it also removes: over any history the numbers
    of link clicks, of appended and of removed links all equal the number
    of export clicks, and the only attribute ever set is the download name
    [data_export_with_errors.csv]. *)
Theorem export_leaves_no_link_behind : forall evs st,
  length (filter is_click (trace_of (run evs) st)) = length (filter is_export evs) /\
  length (filter is_append (trace_of (run evs) st)) = length (filter is_export evs) /\
  length (filter is_remove (trace_of (run evs) st)) = length (filter is_export evs) /\
  forallb sets_download_name (trace_of (run evs) st) = true.
Proof.
  induction evs as [|ev evs IH]; intros st.
  - repeat split; reflexivity.
  - rewrite run_cons_trace, !filter_app, !length_app, forallb_app.
    destruct (handle_trace_kinds ev st) as [_ [_ [Hc [Ha [Hr Hd]]]]].
    destruct (IH (state_after (handle ev) st)) as [IHc [IHa [IHr IHd]]].
    rewrite Hc, Ha, Hr, Hd, IHc, IHa, IHr, IHd. cbn [filter].
    destruct (is_export ev); repeat split; reflexivity.
Qed.
